(** * pypubcontrol: the ZMQ publishing client and the subscription monitor

    A shallow embedding of [zmqpubcontrolclient.py] and [zmqsubmonitor.py].

    Conventions of the embedding.
    - The code is Python 2 code (it compares [m[0]] with the [str]
      literals ['\x01'] and ['\x00'] and serialises with the
      [tnetstring] package): what a socket receives and what a channel
      is normalised to is a [str], a sequence of 8-bit characters.  It is
      modelled by [string], and [m[0]] is a one-character [str].
    - A method is a function from the object's state to an outcome, the
      new state and the trace of what the method did to the outside
      world (frames handed to a socket, callbacks invoked).  An exception
      keeps the state reached when it was raised.
    - [threading.Lock] is a boolean; [acquire] on a held lock never
      returns in a run with one thread, which is the outcome [Blocks].
    - ZMQ itself is outside the repository: creating, connecting and
      sending on a socket always succeed here, and a sent message is
      recorded in the trace. *)

From Stdlib Require Import Ascii String.
From stdpp Require Import gmap strings list pretty.

Local Open Scope string_scope.
Local Open Scope list_scope.

(** ** Outcomes, traces and the method monad *)

(** A Python 2 [str]: a byte string. *)
Abbreviation bytes := string.

Inductive exn :=
  | ValueError (msg : string)
  | IndexError (msg : string)
  | TypeError (msg : string)
  | AttributeError (msg : string).

Inductive outcome (A : Type) :=
  | Ret (a : A)
  | Raise (e : exn)
  | Blocks.
Arguments Ret {A} a.
Arguments Raise {A} e.
Arguments Blocks {A}.

Section Method.
Context {S E : Type}.

(** A method over a state [S] that emits events of type [E]. *)
Definition M (A : Type) : Type := S → outcome A * S * list E.

Definition ret {A} (a : A) : M A := λ s, (Ret a, s, []).

Definition bind {A B} (m : M A) (k : A → M B) : M B := λ s,
  match m s with
  | (Ret a, s1, es1) =>
      let '(o, s2, es2) := k a s1 in (o, s2, es1 ++ es2)
  | (Raise e, s1, es1) => (Raise e, s1, es1)
  | (Blocks, s1, es1) => (Blocks, s1, es1)
  end.

Definition raise {A} (e : exn) : M A := λ s, (Raise e, s, []).
Definition get : M S := λ s, (Ret s, s, []).
Definition modify (f : S → S) : M unit := λ s, (Ret tt, f s, []).
Definition emit (e : E) : M unit := λ s, (Ret tt, s, [e]).

(** [if cond: body] with no [else]. *)
Definition when (cond : bool) (body : M unit) : M unit :=
  if cond then body else ret tt.
End Method.
Arguments M : clear implicits.

(** The methods are written with stdpp's monad notation:
    [x ← m; k] and [m;; k]. *)
#[global] Instance method_ret {S E} : MRet (M S E) := λ A, ret.
#[global] Instance method_bind {S E} : MBind (M S E) := λ A B k m, bind m k.

Definition outcome_of {S E A} (r : outcome A * S * list E) : outcome A := r.1.1.
Definition state_of {S E A} (r : outcome A * S * list E) : S := r.1.2.
Definition trace_of {S E A} (r : outcome A * S * list E) : list E := r.2.

(** ** Values handed to the wire format

    What [Item.export] returns and [tnetstring.dumps] accepts: byte
    strings, integers, booleans, [None], lists and dicts keyed by [str]. *)

#[warnings="-register-all"]
Inductive pyval :=
  | VNone
  | VBool (b : bool)
  | VInt (z : Z)
  | VStr (s : bytes)
  | VList (l : list pyval)
  | VDict (d : gmap string pyval).

(** ** ZMQ sockets *)

(** [zmq.XPUB] and [zmq.PUSH], the two socket types the client creates. *)
Inductive socket_kind := XPUB | PUSH.

#[global] Instance socket_kind_eq_dec : EqDecision socket_kind.
Proof. solve_decision. Defined.

Record Socket := mkSocket {
  socket_type : socket_kind;
  peers : list string;      (* the endpoints [connect] was called with *)
  linger : Z                (* ZMQ's default is -1, wait for ever *)
}.

(** [ctx.socket(kind)] *)
Definition ctx_socket (kind : socket_kind) : Socket :=
  {| socket_type := kind; peers := []; linger := -1 |}.

(** [sock.connect(uri)] *)
Definition sock_connect (uri : string) (s : Socket) : Socket :=
  {| socket_type := socket_type s; peers := peers s ++ [uri]; linger := linger s |}.

(** [sock.linger = v] *)
Definition sock_set_linger (v : Z) (s : Socket) : Socket :=
  {| socket_type := socket_type s; peers := peers s; linger := v |}.

(** ** ZmqPubControlClient *)

Module Client.

Record ZmqPubControlClient := mkClient {
  uri : string;
  zmq_pub_uri : option string;
  zmq_push_uri : option string;
  require_subscriptions : bool;
  disable_pub : bool;
  _lock : bool;                       (* [True] while the lock is held *)
  _zmq_sock : option Socket
}.

Definition set_lock (b : bool) (c : ZmqPubControlClient) : ZmqPubControlClient :=
  {| uri := uri c; zmq_pub_uri := zmq_pub_uri c; zmq_push_uri := zmq_push_uri c;
     require_subscriptions := require_subscriptions c; disable_pub := disable_pub c;
     _lock := b; _zmq_sock := _zmq_sock c |}.

Definition set_zmq_sock (s : option Socket) (c : ZmqPubControlClient)
  : ZmqPubControlClient :=
  {| uri := uri c; zmq_pub_uri := zmq_pub_uri c; zmq_push_uri := zmq_push_uri c;
     require_subscriptions := require_subscriptions c; disable_pub := disable_pub c;
     _lock := _lock c; _zmq_sock := s |}.

(** What a method of the client does to the outside world. *)
Inductive event :=
  | Send (sock : Socket) (frames : list bytes)   (* [send]: one frame; [send_multipart]: several *)
  | SockClose (sock : Socket)                    (* [sock.close()] *)
  | Callback (f : string) (result : bool) (message : string).
                                                 (* [f(result, message)], [f] the callback's name *)

Abbreviation Method := (M ZmqPubControlClient event).

(** [self._lock.acquire()] *)
Definition lock_acquire : Method unit := λ c,
  if _lock c then (Blocks, c, []) else (Ret tt, set_lock true c, []).

(** [self._lock.release()]: releasing a free lock is an error in Python;
    no method of the class reaches that. *)
Definition lock_release : Method unit := modify (set_lock false).

(** [self._zmq_sock = self._zmq_ctx.socket(kind)] *)
Definition new_zmq_sock (kind : socket_kind) : Method unit :=
  modify (set_zmq_sock (Some (ctx_socket kind))).

(** [self._zmq_sock.connect(addr)], where [addr] is one of the two URI
    attributes as it stands: pyzmq refuses [None]. *)
Definition zmq_sock_connect (addr : option string) : Method unit :=
  self ← get;
  match _zmq_sock self, addr with
  | None, _ => raise (AttributeError "'NoneType' object has no attribute 'connect'")
  | Some _, None => raise (TypeError "expected str, got NoneType")
  | Some s, Some a => modify (set_zmq_sock (Some (sock_connect a s)))
  end.

(** [self._zmq_sock.linger = v] *)
Definition zmq_sock_set_linger (v : Z) : Method unit :=
  self ← get;
  match _zmq_sock self with
  | None => raise (AttributeError "'NoneType' object has no attribute 'linger'")
  | Some s => modify (set_zmq_sock (Some (sock_set_linger v s)))
  end.

(** [x is not None] and [x is None] *)
Definition is_not_None {A} (x : option A) : bool :=
  match x with Some _ => true | None => false end.
Definition is_None {A} (x : option A) : bool := negb (is_not_None x).

(** [_verify_uri_config] *)
Definition _verify_uri_config : Method unit :=
  self ← get;
  when (is_None (zmq_pub_uri self) && is_None (zmq_push_uri self))
    (raise (ValueError "either a zmq pub or push uri must be set to publish"));;
  when (is_None (zmq_pub_uri self) && require_subscriptions self)
    (raise (ValueError "zmq_pub_uri must be set if require_subscriptions is set to true")).

(** [connect_zmq] *)
Definition connect_zmq : Method unit :=
  _verify_uri_config;;
  lock_acquire;;
  self ← get;
  when (is_None (_zmq_sock self))
    (if is_not_None (zmq_pub_uri self) && negb (disable_pub self)
        && (is_None (zmq_push_uri self) || require_subscriptions self)
     then
       new_zmq_sock XPUB;;
       zmq_sock_connect (zmq_pub_uri self);;
       zmq_sock_set_linger 0
     else if is_not_None (zmq_push_uri self) && negb (require_subscriptions self)
     then
       new_zmq_sock PUSH;;
       zmq_sock_connect (zmq_push_uri self);;
       zmq_sock_set_linger 0
     else ret tt);;
  lock_release.

(** [close] *)
Definition close : Method unit :=
  lock_acquire;;
  self ← get;
  match _zmq_sock self with
  | Some s => emit (SockClose s);; modify (set_zmq_sock None)
  | None => ret tt
  end;;
  lock_release.

(** The collaborators [publish] calls into: [_ensure_utf8] of the
    package's [utilities] module, the [export] method of the package's
    [Item] class and [tnetstring.dumps].  None of them is among the
    sources; the client is written over any three such functions. *)
Section Publish.
Context {Channel Item : Type}.
Variable _ensure_utf8 : Channel → bytes.
Variable export : Item → bool → bool → gmap string pyval.
Variable dumps : pyval → bytes.

(** [_send_to_zmq] *)
Definition _send_to_zmq (content : gmap string pyval) (channel : bytes)
  : Method unit :=
  lock_acquire;;
  self ← get;
  match _zmq_sock self with
  | None => raise (AttributeError "'NoneType' object has no attribute 'socket_type'")
  | Some sock =>
      if bool_decide (socket_type sock = PUSH)
      then
        let content := <["channel" := VStr channel]> content in
        emit (Send sock [dumps (VDict content)])
      else
        emit (Send sock [channel; dumps (VDict content)])
  end;;
  lock_release.

(** [publish]; [callback] is [None] or the name of a callable. *)
Definition publish (channel : Channel) (item : Item) (blocking : bool)
    (callback : option string) : Method unit :=
  connect_zmq;;
  self ← get;
  if is_None (_zmq_sock self)
  then
    match callback with
    | Some f => emit (Callback f true "")
    | None => ret tt
    end
  else
    let i := export item true true in
    let channel := _ensure_utf8 channel in
    _send_to_zmq i channel;;
    match callback with
    | Some f => emit (Callback f true "")
    | None => ret tt
    end.
End Publish.

(** [__init__]: the constructed object, or the exception that leaves
    none.  [zmq] and [tnetstring] say whether the two imports at the top
    of the module succeeded.  The ZMQ context only creates sockets and is
    left out. *)
Definition __init__ (zmq tnetstring : bool)
    (uri : string) (zmq_push_uri zmq_pub_uri : option string)
    (require_subscriptions disable_pub : bool) : outcome ZmqPubControlClient :=
  if negb zmq then Raise (ValueError "zmq package must be installed")
  else if negb tnetstring then Raise (ValueError "tnetstring package must be installed")
  else
    let self := mkClient uri zmq_pub_uri zmq_push_uri
                         require_subscriptions disable_pub false None in
    if is_not_None zmq_push_uri || is_not_None zmq_pub_uri
    then match connect_zmq self with
         | (Ret _, self, _) => Ret self
         | (Raise e, _, _) => Raise e
         | (Blocks, _, _) => Blocks
         end
    else Ret self.

End Client.

(** ** ZmqSubMonitor *)

Module Monitor.

Record ZmqSubMonitor := mkMonitor {
  subscriptions : list bytes;
  _lock : bool
}.

Definition set_lock (b : bool) (m : ZmqSubMonitor) : ZmqSubMonitor :=
  {| subscriptions := subscriptions m; _lock := b |}.

Definition set_subscriptions (l : list bytes) (m : ZmqSubMonitor) : ZmqSubMonitor :=
  {| subscriptions := l; _lock := _lock m |}.

(** [self._callback(kind, item)] *)
Inductive event := Callback (kind : string) (item : bytes).

#[global] Instance event_eq_dec : EqDecision event.
Proof. solve_decision. Defined.

Abbreviation Method := (M ZmqSubMonitor event).

(** [self._lock.acquire()] and [self._lock.release()] *)
Definition lock_acquire : Method unit := λ m,
  if _lock m then (Blocks, m, []) else (Ret tt, set_lock true m, []).
Definition lock_release : Method unit := modify (set_lock false).

(** [m[0]] on a [str]: the one-character string at index 0. *)
Definition str_first (m : bytes) : Method bytes :=
  match m with
  | EmptyString => raise (IndexError "string index out of range")
  | String c _ => ret (String c EmptyString)
  end.

(** [m[1:]] *)
Definition str_tail (m : bytes) : bytes :=
  match m with
  | EmptyString => EmptyString
  | String _ rest => rest
  end.

(** [l.remove(x)]: drops the first element equal to [x]; [None] stands
    for the [ValueError] of a list without [x]. *)
Fixpoint list_remove (x : bytes) (l : list bytes) : option (list bytes) :=
  match l with
  | [] => None
  | y :: l' => if bool_decide (y = x) then Some l'
               else (y ::.) <$> list_remove x l'
  end.

(** Lines 44 to 56 of [_monitor]: what one turn of the loop does with
    the frame [m] that [self._socket.recv()] returned. *)
Definition _monitor_recv (m : bytes) : Method unit :=
  lock_acquire;;
  mtype ← str_first m;
  let item := str_tail m in
  (if bool_decide (mtype = String "001" EmptyString)
   then
     self ← get;
     if negb (bool_decide (item ∈ subscriptions self))
     then
       emit (Callback "sub" item);;
       modify (set_subscriptions (subscriptions self ++ [item]))
     else ret tt
   else if bool_decide (mtype = String "000" EmptyString)
   then
     self ← get;
     (if bool_decide (item ∈ subscriptions self)
      then match list_remove item (subscriptions self) with
           | Some l => modify (set_subscriptions l)
           | None => raise (ValueError "list.remove(x): x not in list")
           end
      else ret tt);;
     emit (Callback "unsub" item)
   else ret tt);;
  lock_release.

(** What the socket shows to one turn of the loop: it has been closed,
    [poll] reports a frame to read, or [poll] comes back without
    [POLLIN] for the socket. *)
Inductive arrival := Closed | Readable (m : bytes) | NotReadable.

(** [_monitor]: the loop, run against what the socket brings.  When the
    socket stays open and nothing more arrives, [poll] waits for ever. *)
Fixpoint _monitor (feed : list arrival) : Method unit :=
  match feed with
  | [] => λ m, (Blocks, m, [])
  | Closed :: _ => ret tt
  | Readable m :: feed' => _monitor_recv m;; _monitor feed'
  | NotReadable :: feed' => _monitor feed'
  end.

(** [__init__]: no subscription is known; the thread that runs
    [_monitor] starts with the lock it was given.  The socket is what
    feeds [_monitor], the callback is what its trace records. *)
Definition __init__ (lock : bool) : ZmqSubMonitor :=
  {| subscriptions := []; _lock := lock |}.

End Monitor.

(** ** Collaborators used to run the client on concrete inputs *)

Module Wire.

(** A channel as Python 2 has it: a [str], or a [unicode] given by its
    code points. *)
Inductive text :=
  | Str (s : bytes)
  | Unicode (code_points : list N).

Definition byte_of (n : N) : ascii := ascii_of_N (n `mod` 256).

(** The UTF-8 bytes of one code point. *)
Definition utf8_code_point (n : N) : bytes :=
  (if decide (n < 128) then
     String (byte_of n) EmptyString
   else if decide (n < 2048) then
     String (byte_of (192 + n `div` 64))
       (String (byte_of (128 + n `mod` 64)) EmptyString)
   else if decide (n < 65536) then
     String (byte_of (224 + n `div` 4096))
       (String (byte_of (128 + (n `div` 64) `mod` 64))
          (String (byte_of (128 + n `mod` 64)) EmptyString))
   else
     String (byte_of (240 + n `div` 262144))
       (String (byte_of (128 + (n `div` 4096) `mod` 64))
          (String (byte_of (128 + (n `div` 64) `mod` 64))
             (String (byte_of (128 + n `mod` 64)) EmptyString))))%N.

(** Modelled from the spec: [_ensure_utf8] of the package's [utilities]
    module, which is not among the sources.  The spec has it convert a
    channel identifier into its canonical UTF-8 byte sequence: a byte
    string is kept, a [unicode] is encoded. *)
Definition _ensure_utf8 (channel : text) : bytes :=
  match channel with
  | Str s => s
  | Unicode cps => foldr (λ n acc, utf8_code_point n +:+ acc) EmptyString cps
  end.

(** Modelled from the spec: the [Item] class of the package, which is not
    among the sources.  The spec only asks that [export] returns a
    mapping from field names to serialisable values, so an item is
    given by the mapping it exports, whatever the two flags. *)
Record Item := mkItem { fields : gmap string pyval }.

Definition export (item : Item) (tnetstring_safe multi : bool)
  : gmap string pyval := fields item.

(** A tnetstring: the payload preceded by its length and a colon and
    followed by a one-character type tag. *)
Definition tnet (payload tag : bytes) : bytes :=
  pretty (String.length payload) +:+ ":" +:+ payload +:+ tag.

(** [tnetstring.dumps], of the tnetstring package. *)
Fixpoint dumps (v : pyval) : bytes :=
  match v with
  | VNone => tnet "" "~"
  | VBool true => tnet "true" "!"
  | VBool false => tnet "false" "!"
  | VInt z => tnet (pretty z) "#"
  | VStr s => tnet s ","
  | VList l => tnet (foldr (λ x acc, dumps x +:+ acc) "" l) "]"
  | VDict d =>
      tnet (map_fold (λ k x acc, acc +:+ tnet k "," +:+ dumps x) "" d) "}"
  end.

End Wire.

(** * The vocabulary of the properties *)

Module ClientSpec.
Import Client.

(** The archetype of a client: the type of the socket it holds, if any. *)
Definition archetype (c : ZmqPubControlClient) : option socket_kind :=
  socket_type <$> _zmq_sock c.

(** The two eligibility conditions, in the words of the specification. *)
Definition broadcast_eligible (c : ZmqPubControlClient) : Prop :=
  zmq_pub_uri c ≠ None ∧ disable_pub c = false ∧
  (zmq_push_uri c = None ∨ require_subscriptions c = true).

Definition push_eligible (c : ZmqPubControlClient) : Prop :=
  zmq_push_uri c ≠ None ∧ require_subscriptions c = false.

(** The configuration passes [_verify_uri_config]. *)
Definition valid_config (c : ZmqPubControlClient) : Prop :=
  ¬ (zmq_pub_uri c = None ∧ zmq_push_uri c = None) ∧
  ¬ (zmq_pub_uri c = None ∧ require_subscriptions c = true).

(** In-memory assignment to the four configuration attributes. *)
Definition reconfigure (pub push : option string) (req dis : bool)
    (c : ZmqPubControlClient) : ZmqPubControlClient :=
  {| uri := uri c; zmq_pub_uri := pub; zmq_push_uri := push;
     require_subscriptions := req; disable_pub := dis;
     _lock := _lock c; _zmq_sock := _zmq_sock c |}.

(** What the caller's callback sees at the end of [publish]. *)
Definition reported (callback : option string) : list event :=
  match callback with
  | Some f => [Callback f true ""]
  | None => []
  end.

(** What holds of a client between two calls: the lock is free, and a
    socket is only ever held under a configuration that passes
    validation. *)
Definition client_inv (c : ZmqPubControlClient) : Prop :=
  _lock c = false ∧ (_zmq_sock c ≠ None → valid_config c).

Section Reachable.
Context {Channel Item : Type}.
Variable _ensure_utf8 : Channel → bytes.
Variable export : Item → bool → bool → gmap string pyval.
Variable dumps : pyval → bytes.

(** The clients a program can hold: built by [__init__] and then only
    touched through [connect_zmq], [publish] and [close]. *)
Inductive reachable : ZmqPubControlClient → Prop :=
  | reach_init zmq tnetstring u push pub req dis c :
      __init__ zmq tnetstring u push pub req dis = Ret c → reachable c
  | reach_connect c :
      reachable c → reachable (state_of (connect_zmq c))
  | reach_publish c channel item blocking callback :
      reachable c →
      reachable (state_of (publish _ensure_utf8 export dumps
                             channel item blocking callback c))
  | reach_close c :
      reachable c → reachable (state_of (close c)).
End Reachable.

(** The socket [s] is the one [connect_zmq] builds from the configuration
    of [c]: of the archetype the precedence selects, connected to that
    archetype's URI and to nothing else, with linger 0. *)
Definition socket_matches_config (c : ZmqPubControlClient) (s : Socket) : Prop :=
  (broadcast_eligible c ∧
   ∃ a, zmq_pub_uri c = Some a ∧ s = mkSocket XPUB [a] 0) ∨
  (¬ broadcast_eligible c ∧ push_eligible c ∧
   ∃ a, zmq_push_uri c = Some a ∧ s = mkSocket PUSH [a] 0).

(** [c'] has the configuration attributes of [c]. *)
Definition same_config (c c' : ZmqPubControlClient) : Prop :=
  uri c' = uri c ∧ zmq_pub_uri c' = zmq_pub_uri c ∧
  zmq_push_uri c' = zmq_push_uri c ∧
  require_subscriptions c' = require_subscriptions c ∧
  disable_pub c' = disable_pub c.

End ClientSpec.

Module MonitorSpec.
Import Monitor.

(** The two control frames that name the channel [c]. *)
Definition sub_frame (c : bytes) : bytes := String "001" c.
Definition unsub_frame (c : bytes) : bytes := String "000" c.

(** A well-formed control frame starts with 0x01 or 0x00. *)
Definition well_formed (m : bytes) : Prop :=
  ∃ c, m = sub_frame c ∨ m = unsub_frame c.

(** No frame of [frames] names [c]. *)
Definition unnamed (c : bytes) (frames : list bytes) : Prop :=
  (sub_frame c ∉ frames) ∧ (unsub_frame c ∉ frames).

(** The most recent frame of [frames] that names [c] is a subscribe
    frame. *)
Definition last_named_by_subscribe (c : bytes) (frames : list bytes) : Prop :=
  ∃ before after, frames = before ++ sub_frame c :: after ∧ unnamed c after.

(** The channel of an unsubscribe frame. *)
Definition unsub_channel (m : bytes) : option bytes :=
  match m with
  | String a c => if bool_decide (a = "000"%char) then Some c else None
  | EmptyString => None
  end.

(** The channels the callback was told to be unsubscribed, in order. *)
Definition unsub_calls (tr : list event) : list bytes :=
  omap (λ e, match e with
             | Callback kind c => if bool_decide (kind = "unsub") then Some c else None
             end) tr.

(** In the trace [tr] the calls about the channel [c] alternate: a
    [("sub", c)] comes only when [c] is not [known], that is at the
    start of a monitor that does not know [c], or after a [("unsub", c)]
    with no [("sub", c)] since. *)
Fixpoint bracketed (c : bytes) (known : bool) (tr : list event) : bool :=
  match tr with
  | [] => true
  | Callback kind d :: tr' =>
      if bool_decide (d = c)
      then if bool_decide (kind = "sub") then negb known && bracketed c true tr'
           else if bool_decide (kind = "unsub") then bracketed c false tr'
           else bracketed c known tr'
      else bracketed c known tr'
  end.

(** What a turn of the loop can see that is not a poll without
    [POLLIN]. *)
Definition shows_something (a : arrival) : bool :=
  match a with
  | NotReadable => false
  | Closed | Readable _ => true
  end.

End MonitorSpec.

(** ** Inputs on which the properties are run *)

Module Examples.
Import Client.

Definition control : string := "tcp://localhost:5563".
Definition push_endpoint : string := "tcp://localhost:5560".
Definition pub_endpoint : string := "tcp://localhost:5562".

Definition push_sock : Socket :=
  {| socket_type := PUSH; peers := [push_endpoint]; linger := 0 |}.
Definition pub_sock : Socket :=
  {| socket_type := XPUB; peers := [pub_endpoint]; linger := 0 |}.

(** [ZmqPubControlClient(control, push_endpoint)] *)
Definition push_client : ZmqPubControlClient :=
  mkClient control None (Some push_endpoint) false false false (Some push_sock).

(** [ZmqPubControlClient(control, push_endpoint, pub_endpoint, True)] *)
Definition pub_client : ZmqPubControlClient :=
  mkClient control (Some pub_endpoint) (Some push_endpoint) true false false
           (Some pub_sock).

(** Both URIs, [disable_pub] set, before the first [connect_zmq]. *)
Definition fresh_client : ZmqPubControlClient :=
  mkClient control (Some pub_endpoint) (Some push_endpoint) false true false None.

(** A client that holds a PUSH socket although its configuration, as it
    now stands, asks for subscriptions without a PUB URI. *)
Definition stale_client : ZmqPubControlClient :=
  mkClient control None (Some push_endpoint) true false false (Some push_sock).

(** An item with an id and one format. *)
Definition item : Wire.Item :=
  Wire.mkItem
    (<["id" := VStr "42"]>
       (<["http-stream" := VDict (<["content" := VStr "hello"]> ∅)]> ∅)).

(** The channel [u"caf\xe9"]. *)
Definition channel : Wire.text := Wire.Unicode [99; 97; 102; 233]%N.

Definition frames : list bytes :=
  [MonitorSpec.sub_frame "a"; MonitorSpec.unsub_frame "a";
   MonitorSpec.sub_frame "a"; MonitorSpec.sub_frame "b";
   MonitorSpec.unsub_frame "b"].

End Examples.

(** * Properties of the client *)

Module ClientProps.
Import Client ClientSpec.

(** Unfolds a method down to the tuple it returns. *)
Ltac run_method :=
  cbv [connect_zmq _verify_uri_config close lock_acquire lock_release
       new_zmq_sock zmq_sock_connect zmq_sock_set_linger
       _send_to_zmq publish
       mbind mret method_bind method_ret bind ret raise get modify emit when
       is_None is_not_None negb andb orb
       set_lock set_zmq_sock reconfigure
       uri zmq_pub_uri zmq_push_uri require_subscriptions disable_pub
       _lock _zmq_sock outcome_of state_of trace_of fst snd app].

Ltac destruct_client c :=
  destruct c as [? [?|] [?|] [] [] [] [?|]].

Lemma verify_valid (c : ZmqPubControlClient) :
  valid_config c → _verify_uri_config c = (Ret (), c, []).
Proof.
  intros [H1 H2]. destruct_client c; cbn in H1, H2; run_method;
    first [reflexivity | exfalso; tauto].
Qed.

Lemma verify_invalid (c : ZmqPubControlClient) :
  ¬ valid_config c →
  ∃ msg, _verify_uri_config c = (Raise (ValueError msg), c, []).
Proof.
  intros H. destruct_client c; run_method; eauto;
    exfalso; apply H; split; cbn; intros [? ?]; congruence.
Qed.

(** C1: when [connect_zmq] runs on a client without a socket, it ends with
    an XPUB socket exactly when the broadcast condition holds, otherwise
    with a PUSH socket exactly when the push condition holds, otherwise
    without a socket; the socket it creates is connected to the URI of
    its archetype with linger 0, and a configuration that passes
    validation returns normally. *)
Theorem connect_zmq_archetype_precedence (c : ZmqPubControlClient) :
  _zmq_sock c = None → _lock c = false →
  let c' := state_of (connect_zmq c) in
  (archetype c' = Some XPUB ↔ broadcast_eligible c) ∧
  (archetype c' = Some PUSH ↔ ¬ broadcast_eligible c ∧ push_eligible c) ∧
  (_zmq_sock c' = None ↔ ¬ broadcast_eligible c ∧ ¬ push_eligible c) ∧
  (∀ s, _zmq_sock c' = Some s →
     linger s = 0%Z ∧
     ((socket_type s = XPUB ∧ Some <$> peers s = [zmq_pub_uri c]) ∨
      (socket_type s = PUSH ∧ Some <$> peers s = [zmq_push_uri c]))) ∧
  (valid_config c → outcome_of (connect_zmq c) = Ret ()) ∧
  trace_of (connect_zmq c) = [].
Proof.
  intros Hs Hl. unfold archetype, broadcast_eligible, push_eligible, valid_config.
  destruct_client c; try discriminate; run_method; cbn;
    repeat split; try congruence;
    try (intros; simplify_eq; cbn; tauto);
    try solve [intuition congruence].
Qed.

Lemma connect_zmq_archetype_precedence_witness :
  archetype (state_of (connect_zmq Examples.fresh_client)) = Some PUSH.
Proof.
  apply (connect_zmq_archetype_precedence Examples.fresh_client eq_refl eq_refl).
  split.
  - intros (_ & Hdis & _). discriminate Hdis.
  - split; [discriminate | reflexivity].
Defined.

(** C2: [connect_zmq] raises [ValueError] when neither URI is set and when
    [require_subscriptions] is true while [zmq_pub_uri] is unset, whatever
    [zmq_push_uri] is; it does so before it looks at the socket, so also
    on a client that holds one, and leaves the client as it was. *)
Theorem connect_zmq_validates_every_call (c : ZmqPubControlClient) :
  (zmq_pub_uri c = None ∧ zmq_push_uri c = None) ∨
  (zmq_pub_uri c = None ∧ require_subscriptions c = true) →
  (∃ msg, connect_zmq c = (Raise (ValueError msg), c, [])) ∧
  (∀ sock, ∃ msg,
     connect_zmq (set_zmq_sock (Some sock) c) =
       (Raise (ValueError msg), set_zmq_sock (Some sock) c, [])).
Proof.
  intros H. split; [|intros sock];
    destruct_client c; cbn in H; run_method; eauto;
    exfalso; destruct H as [[? ?]|[? ?]]; congruence.
Qed.

Lemma connect_zmq_validates_every_call_witness :
  ∃ msg, connect_zmq Examples.stale_client =
           (Raise (ValueError msg), Examples.stale_client, []).
Proof.
  apply (connect_zmq_validates_every_call Examples.stale_client).
  right. split; reflexivity.
Defined.

(** C6: once the client holds a socket, [connect_zmq] keeps that very
    socket and does nothing to the outside world, whatever values the
    configuration attributes have been given in the meantime. *)
Theorem connect_zmq_idempotent (c : ZmqPubControlClient) (sock : Socket)
    (pub push : option string) (req dis : bool) :
  _zmq_sock c = Some sock →
  _zmq_sock (state_of (connect_zmq c)) = Some sock ∧
  trace_of (connect_zmq c) = [] ∧
  _zmq_sock (state_of (connect_zmq (reconfigure pub push req dis c))) = Some sock ∧
  trace_of (connect_zmq (reconfigure pub push req dis c)) = [].
Proof.
  intros Hs. destruct_client c; try discriminate;
    destruct pub, push, req, dis; run_method; cbn in *; auto.
Qed.

Lemma connect_zmq_idempotent_witness :
  _zmq_sock (state_of (connect_zmq
     (reconfigure (Some Examples.pub_endpoint) None true false Examples.push_client)))
  = Some Examples.push_sock.
Proof.
  apply (connect_zmq_idempotent Examples.push_client Examples.push_sock
           (Some Examples.pub_endpoint) None true false eq_refl).
Defined.

Section PublishProps.
Context {Channel Item : Type}.
Variable _ensure_utf8 : Channel → bytes.
Variable export : Item → bool → bool → gmap string pyval.
Variable dumps : pyval → bytes.

Local Abbreviation publish := (publish _ensure_utf8 export dumps).
Local Abbreviation reachable := (reachable _ensure_utf8 export dumps).

Lemma connect_zmq_inv (c : ZmqPubControlClient) :
  client_inv c → client_inv (state_of (connect_zmq c)).
Proof.
  unfold client_inv, valid_config. intros [Hl Hv].
  destruct_client c; try discriminate; run_method; cbn in *;
    (split; [reflexivity|]); intros; try congruence;
    first [apply Hv; congruence | split; intros [? ?]; congruence].
Qed.

Lemma close_inv (c : ZmqPubControlClient) :
  client_inv c → client_inv (state_of (close c)).
Proof.
  unfold client_inv. intros [Hl _].
  destruct_client c; try discriminate; run_method; cbn; split; congruence.
Qed.

Lemma publish_state (c : ZmqPubControlClient) channel item blocking callback :
  _lock c = false →
  state_of (publish channel item blocking callback c) = state_of (connect_zmq c).
Proof.
  intros Hl. destruct_client c; try discriminate; destruct callback;
    run_method; cbn; try reflexivity;
    repeat case_bool_decide; reflexivity.
Qed.

Lemma reachable_inv (c : ZmqPubControlClient) : reachable c → client_inv c.
Proof.
  induction 1 as [zmq tn u push pub req dis c Hi| | |].
  - unfold __init__ in Hi. destruct zmq, tn; try discriminate. cbn in Hi.
    set (c0 := mkClient u pub push req dis false None) in Hi.
    assert (H0 : client_inv c0) by (split; [reflexivity | intros []; reflexivity]).
    destruct (is_not_None push || is_not_None pub).
    + pose proof (connect_zmq_inv c0 H0) as Hc.
      destruct (connect_zmq c0) as [[[]]]; simplify_eq; exact Hc.
    + by simplify_eq.
  - by apply connect_zmq_inv.
  - rewrite publish_state by apply IHreachable. by apply connect_zmq_inv.
  - by apply close_inv.
Qed.

(** [publish] on a client that holds a socket and could pass validation
    with a free lock. *)
Lemma publish_connected (c : ZmqPubControlClient) (sock : Socket)
    channel item blocking callback :
  _zmq_sock c = Some sock → _lock c = false → valid_config c →
  publish channel item blocking callback c =
    (Ret (), c,
     Send sock
       (if bool_decide (socket_type sock = PUSH)
        then [dumps (VDict (<["channel" := VStr (_ensure_utf8 channel)]>
                              (export item true true)))]
        else [_ensure_utf8 channel; dumps (VDict (export item true true))])
     :: reported callback).
Proof.
  intros Hs Hl Hv. unfold Client.publish, Client.connect_zmq.
  cbv [mbind method_bind bind]. rewrite (verify_valid c Hv).
  destruct_client c; try discriminate; cbn in Hs; simplify_eq;
    run_method; case_bool_decide; destruct callback; reflexivity.
Qed.

(** C3: with both URIs set, [disable_pub] and [require_subscriptions]
    true, the constructor and [connect_zmq] raise nothing and leave the
    client without a socket; [publish] then returns normally, sends
    nothing, and the only thing it does is to call the callback, if
    there is one, with [True] and the empty string. *)
Theorem publish_without_eligible_transport
    (u push pub : string) channel item blocking callback :
  let c := mkClient u (Some pub) (Some push) true true false None in
  __init__ true true u (Some push) (Some pub) true true = Ret c ∧
  connect_zmq c = (Ret (), c, []) ∧
  publish channel item blocking callback c = (Ret (), c, reported callback) ∧
  (∀ sock frames, Send sock frames ∉ reported callback) ∧
  reported (Some "cb") = [Callback "cb" true ""].
Proof.
  repeat split; try (destruct callback; reflexivity).
  intros sock frames Hin. destruct callback; cbn in Hin;
    repeat match goal with H : _ ∈ _ |- _ => inversion H; clear H; subst end.
Qed.

(** C4: [publish] on a client whose socket is a PUSH socket returns
    normally and hands the socket exactly one message of exactly one
    frame: the serialisation of the exported item in which [channel] is
    bound to the normalised channel. *)
Theorem publish_push_one_frame (c : ZmqPubControlClient) (sock : Socket)
    channel item blocking callback :
  reachable c → _zmq_sock c = Some sock → socket_type sock = PUSH →
  let content := <["channel" := VStr (_ensure_utf8 channel)]> (export item true true) in
  publish channel item blocking callback c =
    (Ret (), c, Send sock [dumps (VDict content)] :: reported callback) ∧
  content !! "channel" = Some (VStr (_ensure_utf8 channel)) ∧
  (∀ k, k ≠ "channel" → content !! k = export item true true !! k).
Proof.
  intros Hr Hs Ht content. destruct (reachable_inv c Hr) as [Hl Hv].
  rewrite (publish_connected c sock) by (auto; apply Hv; congruence).
  rewrite bool_decide_true by done. repeat split.
  - apply lookup_insert_eq.
  - intros k Hk. by apply lookup_insert_ne.
Qed.

(** C5: [publish] on a client whose socket is an XPUB socket returns
    normally and hands the socket exactly one message of exactly two
    frames: the normalised channel, then the serialisation of the
    exported item as [export] returned it. *)
Theorem publish_broadcast_two_frames (c : ZmqPubControlClient) (sock : Socket)
    channel item blocking callback :
  reachable c → _zmq_sock c = Some sock → socket_type sock = XPUB →
  publish channel item blocking callback c =
    (Ret (), c,
     Send sock [_ensure_utf8 channel; dumps (VDict (export item true true))]
     :: reported callback).
Proof.
  intros Hr Hs Ht. destruct (reachable_inv c Hr) as [Hl Hv].
  rewrite (publish_connected c sock) by (auto; apply Hv; congruence).
  rewrite bool_decide_false by congruence. reflexivity.
Qed.
End PublishProps.

Lemma publish_push_one_frame_witness :
  Client.publish Wire._ensure_utf8 Wire.export Wire.dumps
    Examples.channel Examples.item false (Some "done") Examples.push_client =
  (Ret (), Examples.push_client,
   [Send Examples.push_sock
      [Wire.dumps (VDict (<["channel" := VStr (Wire._ensure_utf8 Examples.channel)]>
                            (Wire.fields Examples.item)))];
    Callback "done" true ""]).
Proof.
  apply (publish_push_one_frame Wire._ensure_utf8 Wire.export Wire.dumps
           Examples.push_client Examples.push_sock).
  - apply (reach_init _ _ _ true true Examples.control
             (Some Examples.push_endpoint) None false false).
    reflexivity.
  - reflexivity.
  - reflexivity.
Defined.

Lemma publish_broadcast_two_frames_witness :
  Client.publish Wire._ensure_utf8 Wire.export Wire.dumps
    Examples.channel Examples.item false None Examples.pub_client =
  (Ret (), Examples.pub_client,
   [Send Examples.pub_sock
      [Wire._ensure_utf8 Examples.channel;
       Wire.dumps (VDict (Wire.fields Examples.item))]]).
Proof.
  apply (publish_broadcast_two_frames Wire._ensure_utf8 Wire.export Wire.dumps
           Examples.pub_client Examples.pub_sock).
  - apply (reach_init _ _ _ true true Examples.control
             (Some Examples.push_endpoint) (Some Examples.pub_endpoint) true false).
    reflexivity.
  - reflexivity.
  - reflexivity.
Defined.

(** The two sends on the wire, for the channel ['news']. *)
Example push_send_on_the_wire :
  trace_of (Client.publish Wire._ensure_utf8 Wire.export Wire.dumps
              (Wire.Str "news") Examples.item false None Examples.push_client) =
  [Send Examples.push_sock
     ["64:11:http-stream,18:7:content,5:hello,}2:id,2:42,7:channel,4:news,}"]].
Proof. vm_compute. reflexivity. Qed.

Example broadcast_send_on_the_wire :
  trace_of (Client.publish Wire._ensure_utf8 Wire.export Wire.dumps
              (Wire.Str "news") Examples.item false None Examples.pub_client) =
  [Send Examples.pub_sock
     ["news"; "47:11:http-stream,18:7:content,5:hello,}2:id,2:42,}"]].
Proof. vm_compute. reflexivity. Qed.

(** [close] and then [publish] connects again. *)
Example close_then_publish :
  _zmq_sock (state_of (close Examples.push_client)) = None ∧
  state_of (Client.publish Wire._ensure_utf8 Wire.export Wire.dumps
              (Wire.Str "news") Examples.item false None
              (state_of (close Examples.push_client))) = Examples.push_client.
Proof. split; vm_compute; reflexivity. Qed.

End ClientProps.

(** * Properties of the monitor *)

Module MonitorProps.
Import Monitor MonitorSpec.

Ltac run_method :=
  cbv [_monitor_recv lock_acquire lock_release str_first str_tail
       sub_frame unsub_frame
       mbind mret method_bind method_ret bind ret raise get modify emit when
       set_lock set_subscriptions subscriptions _lock
       outcome_of state_of trace_of fst snd negb].

(** ** [list.remove] *)

Lemma list_remove_elem (x : bytes) (l : list bytes) :
  x ∈ l → ∃ l1 l2, l = l1 ++ x :: l2 ∧ (x ∉ l1) ∧ list_remove x l = Some (l1 ++ l2).
Proof.
  induction l as [|y l IH]; intros Hin.
  - inversion Hin.
  - cbn. case_bool_decide as Hy.
    + subst y. exists [], l. repeat split. apply not_elem_of_nil.
    + assert (Hl : x ∈ l) by (inversion Hin; subst; congruence).
      destruct (IH Hl) as (l1 & l2 & -> & Hn & ->).
      exists (y :: l1), l2. repeat split.
      intros Hc. inversion Hc; subst; congruence.
Qed.

Lemma list_remove_NoDup (x : bytes) (l l' : list bytes) :
  NoDup l → list_remove x l = Some l' →
  NoDup l' ∧ (x ∉ l') ∧ ∀ y, y ≠ x → (y ∈ l' ↔ y ∈ l).
Proof.
  intros Hnd Hr.
  assert (Hin : x ∈ l).
  { clear Hnd. revert l' Hr. induction l as [|y l IH]; intros l' Hr; [discriminate|].
    cbn in Hr. case_bool_decide; subst; [left|].
    destruct (list_remove x l); [|discriminate]. right. eauto. }
  destruct (list_remove_elem x l Hin) as (l1 & l2 & -> & Hn & Hr').
  rewrite Hr in Hr'. simplify_eq.
  apply NoDup_app in Hnd as (Hnd1 & Hd & Hnd2).
  apply NoDup_cons in Hnd2 as [Hx2 Hnd2].
  split; [|split].
  - apply NoDup_app. repeat split; [done| |done].
    intros z Hz1 Hz2. apply (Hd z Hz1). by right.
  - rewrite elem_of_app. tauto.
  - intros y Hy. rewrite !elem_of_app, elem_of_cons. tauto.
Qed.

(** ** One turn of the loop *)

Lemma recv_subscribe (st : ZmqSubMonitor) (c : bytes) :
  _lock st = false →
  _monitor_recv (sub_frame c) st =
    if bool_decide (c ∈ subscriptions st)
    then (Ret (), st, [])
    else (Ret (), set_subscriptions (subscriptions st ++ [c]) st,
          [Callback "sub" c]).
Proof.
  intros Hl. destruct st as [subs []]; [discriminate|].
  run_method. rewrite bool_decide_true by reflexivity.
  case_bool_decide; reflexivity.
Qed.

Lemma recv_unsubscribe (st : ZmqSubMonitor) (c : bytes) :
  _lock st = false →
  ∃ subs',
    _monitor_recv (unsub_frame c) st =
      (Ret (), set_subscriptions subs' st, [Callback "unsub" c]) ∧
    (c ∉ subscriptions st → subs' = subscriptions st) ∧
    (c ∈ subscriptions st → list_remove c (subscriptions st) = Some subs').
Proof.
  intros Hl. destruct st as [subs []]; [discriminate|].
  destruct (decide (c ∈ subs)) as [Hin|Hin].
  - destruct (list_remove_elem c subs Hin) as (l1 & l2 & Hsubs & Hn & Hr).
    exists (l1 ++ l2). split; [|split; [tauto | auto]].
    run_method. rewrite bool_decide_false by discriminate.
    rewrite bool_decide_true by reflexivity.
    rewrite bool_decide_true by exact Hin. rewrite Hr. reflexivity.
  - exists subs. split; [|split; [auto | tauto]].
    run_method. rewrite bool_decide_false by discriminate.
    rewrite bool_decide_true by reflexivity.
    rewrite bool_decide_false by exact Hin. reflexivity.
Qed.

Lemma recv_other (st : ZmqSubMonitor) (b : ascii) (rest : bytes) :
  _lock st = false → b ≠ "001"%char → b ≠ "000"%char →
  _monitor_recv (String b rest) st = (Ret (), st, []).
Proof.
  intros Hl H1 H0. destruct st as [subs []]; [discriminate|].
  run_method. rewrite !bool_decide_false by congruence. reflexivity.
Qed.

(** ** Runs of the loop *)

Lemma recv_well_formed (st : ZmqSubMonitor) (m : bytes) :
  _lock st = false → NoDup (subscriptions st) → well_formed m →
  ∃ subs' tr,
    _monitor_recv m st = (Ret (), set_subscriptions subs' st, tr) ∧
    NoDup subs' ∧
    ∀ c, c ∈ subs' ↔ m = sub_frame c ∨ (m ≠ unsub_frame c ∧ c ∈ subscriptions st).
Proof.
  intros Hl Hnd [d [->| ->]].
  - rewrite (recv_subscribe st d Hl). case_bool_decide as Hd.
    + exists (subscriptions st), []. split; [by destruct st|]. split; [done|].
      intros c. split.
      * intros Hc. right. split; [discriminate | done].
      * intros [Heq|[_ Hc]]; [|done]. unfold sub_frame in Heq. by simplify_eq.
    + exists (subscriptions st ++ [d]), [Callback "sub" d]. split; [done|]. split.
      * apply NoDup_app. repeat split; [done | | apply NoDup_singleton].
        intros x Hx Hx'. apply list_elem_of_singleton in Hx'. by subst.
      * intros c. rewrite elem_of_app, list_elem_of_singleton. split.
        -- intros [Hc| ->]; [right; split; [discriminate | done] | by left].
        -- intros [Heq|[_ Hc]]; [|by left]. unfold sub_frame in Heq. right. by simplify_eq.
  - destruct (recv_unsubscribe st d Hl) as (subs' & Hr & Hout & Hin).
    exists subs', [Callback "unsub" d]. split; [done|].
    destruct (decide (d ∈ subscriptions st)) as [Hd|Hd].
    + destruct (list_remove_NoDup d _ _ Hnd (Hin Hd)) as (Hnd' & Hn & Hm).
      split; [done|]. intros c. split.
      * intros Hc. right. assert (c ≠ d) by (intros ->; done).
        split; [unfold unsub_frame; congruence | by apply Hm].
      * intros [Heq|[Hne Hc]]; [discriminate|]. apply Hm; [|done].
        intros ->. done.
    + rewrite (Hout Hd). split; [done|]. intros c. split.
      * intros Hc. right. split; [|done]. unfold unsub_frame. intros ?. by simplify_eq.
      * intros [Heq|[_ Hc]]; [discriminate | done].
Qed.

Lemma unnamed_cons (c m : bytes) (frames : list bytes) :
  unnamed c (m :: frames) ↔ m ≠ sub_frame c ∧ m ≠ unsub_frame c ∧ unnamed c frames.
Proof.
  unfold unnamed. rewrite !not_elem_of_cons. intuition congruence.
Qed.

Lemma last_named_cons (c m : bytes) (frames : list bytes) :
  last_named_by_subscribe c (m :: frames) ↔
  last_named_by_subscribe c frames ∨ (m = sub_frame c ∧ unnamed c frames).
Proof.
  unfold last_named_by_subscribe. split.
  - intros ([|m' before] & after & Heq & Hun); cbn in Heq; simplify_eq; eauto.
  - intros [(before & after & -> & Hun)|[-> Hun]].
    + by exists (m :: before), after.
    + by exists [], frames.
Qed.

Lemma monitor_run (frames : list bytes) (st : ZmqSubMonitor) :
  _lock st = false → NoDup (subscriptions st) → Forall well_formed frames →
  ∃ subs' tr,
    _monitor (Readable <$> frames) st = (Blocks, set_subscriptions subs' st, tr) ∧
    _monitor ((Readable <$> frames) ++ [Closed]) st =
      (Ret (), set_subscriptions subs' st, tr) ∧
    NoDup subs' ∧
    ∀ c, c ∈ subs' ↔
         last_named_by_subscribe c frames ∨ (unnamed c frames ∧ c ∈ subscriptions st).
Proof.
  revert st. induction frames as [|m frames IH]; intros st Hl Hnd Hwf.
  - exists (subscriptions st), []. repeat split; try (by destruct st); try done.
    + intros Hc. right. split; [|done]. split; apply not_elem_of_nil.
    + intros [([|? ?] & ? & ? & _)|[_ Hc]]; by simplify_eq.
  - apply Forall_cons in Hwf as [Hm Hwf].
    destruct (recv_well_formed st m Hl Hnd Hm) as (subs1 & tr1 & Hr1 & Hnd1 & Hmem1).
    destruct (IH (set_subscriptions subs1 st) Hl Hnd1 Hwf)
      as (subs' & tr & Hrun & Hrun' & Hnd' & Hmem).
    exists subs', (tr1 ++ tr). split; [|split; [|split]].
    + cbn [fmap list_fmap _monitor]. cbv [mbind method_bind bind].
      cbn [fmap list_fmap] in Hrun. by rewrite Hr1, Hrun.
    + cbn [fmap list_fmap app _monitor]. cbv [mbind method_bind bind].
      cbn [fmap list_fmap] in Hrun'. by rewrite Hr1, Hrun'.
    + done.
    + intros c. rewrite Hmem, last_named_cons, unnamed_cons. cbn.
      rewrite Hmem1. destruct (decide (m = sub_frame c)); intuition congruence.
Qed.

(** C7: a subscribe frame for [c] makes the monitor call the callback
    with [("sub", c)] and append [c] to the known subscriptions exactly
    when [c] is not among them; otherwise nothing is called and nothing
    changes.  The same subscribe frame fed twice, to a monitor that does
    not know [c] and in particular to a new monitor, gives one call. *)
Theorem subscribe_frame_notifies_once (st : ZmqSubMonitor) (c : bytes) :
  _lock st = false →
  (c ∉ subscriptions st →
     _monitor_recv (sub_frame c) st =
       (Ret (), set_subscriptions (subscriptions st ++ [c]) st,
        [Callback "sub" c])) ∧
  (c ∈ subscriptions st → _monitor_recv (sub_frame c) st = (Ret (), st, [])) ∧
  (c ∉ subscriptions st →
     _monitor [Readable (sub_frame c); Readable (sub_frame c); Closed] st =
       (Ret (), set_subscriptions (subscriptions st ++ [c]) st,
        [Callback "sub" c])) ∧
  _monitor [Readable (sub_frame c); Readable (sub_frame c); Closed] (__init__ false) =
    (Ret (), mkMonitor [c] false, [Callback "sub" c]).
Proof.
  intros Hl.
  assert (Htwice : ∀ st', _lock st' = false → c ∉ subscriptions st' →
     _monitor [Readable (sub_frame c); Readable (sub_frame c); Closed] st' =
       (Ret (), set_subscriptions (subscriptions st' ++ [c]) st',
        [Callback "sub" c])).
  { intros st' Hl' Hn. cbn [_monitor]. cbv [mbind method_bind bind].
    rewrite (recv_subscribe st' c Hl'), bool_decide_false by exact Hn.
    rewrite (recv_subscribe _ c) by (by destruct st').
    rewrite bool_decide_true; [reflexivity|].
    destruct st'; cbn. apply elem_of_app. right. left. }
  repeat split.
  - intros Hn. by rewrite recv_subscribe, bool_decide_false.
  - intros Hin. by rewrite recv_subscribe, bool_decide_true.
  - by apply Htwice.
  - apply (Htwice (__init__ false)); [reflexivity | apply not_elem_of_nil].
Qed.

Lemma subscribe_frame_notifies_once_witness :
  _monitor [Readable (sub_frame "news"); Readable (sub_frame "news"); Closed]
    (mkMonitor ["sports"] false) =
  (Ret (), mkMonitor ["sports"; "news"] false, [Callback "sub" "news"]).
Proof.
  apply (subscribe_frame_notifies_once (mkMonitor ["sports"] false) "news" eq_refl).
  cbn. intros Hin. apply list_elem_of_singleton in Hin. discriminate Hin.
Defined.

(** C8: an unsubscribe frame for [c] makes the monitor call the callback
    with [("unsub", c)] whether or not [c] is known; a known [c] is
    removed by [list.remove], after which, the list having no duplicate,
    [c] is not known any more and every other channel is as before; an
    unknown [c] leaves the list as it was, as on a new monitor. *)
Theorem unsubscribe_frame_always_notifies (st : ZmqSubMonitor) (c : bytes) :
  _lock st = false →
  (∃ subs',
     _monitor_recv (unsub_frame c) st =
       (Ret (), set_subscriptions subs' st, [Callback "unsub" c]) ∧
     (c ∉ subscriptions st → subs' = subscriptions st) ∧
     (c ∈ subscriptions st → list_remove c (subscriptions st) = Some subs') ∧
     (NoDup (subscriptions st) →
        (c ∉ subs') ∧ ∀ d, d ≠ c → (d ∈ subs' ↔ d ∈ subscriptions st))) ∧
  _monitor_recv (unsub_frame c) (__init__ false) =
    (Ret (), __init__ false, [Callback "unsub" c]).
Proof.
  intros Hl. split.
  - destruct (recv_unsubscribe st c Hl) as (subs' & Hr & Hout & Hin).
    exists subs'. split; [exact Hr|]. split; [exact Hout|]. split; [exact Hin|].
    intros Hnd. destruct (decide (c ∈ subscriptions st)) as [Hk|Hk].
    + destruct (list_remove_NoDup c _ _ Hnd (Hin Hk)) as (_ & Hn & Hm). auto.
    + rewrite (Hout Hk). auto.
  - destruct (recv_unsubscribe (__init__ false) c eq_refl) as (subs' & Hr & Hout & _).
    rewrite Hr, (Hout (not_elem_of_nil c)). reflexivity.
Qed.

Lemma unsubscribe_frame_always_notifies_witness :
  _monitor_recv (unsub_frame "news") (mkMonitor ["news"; "sports"] false) =
  (Ret (), mkMonitor ["sports"] false, [Callback "unsub" "news"]).
Proof.
  destruct (unsubscribe_frame_always_notifies
              (mkMonitor ["news"; "sports"] false) "news" eq_refl)
    as [(subs' & Hr & _ & Hin & _) _].
  rewrite Hr. cbn in Hin. specialize (Hin (list_elem_of_here _ _)).
  injection Hin as <-. reflexivity.
Defined.

(** C10: a frame whose first byte is neither 0x01 nor 0x00 is dropped: the
    monitor returns to its loop with the same subscriptions and has
    called nothing. *)
Theorem other_frame_ignored (st : ZmqSubMonitor) (b : ascii) (rest : bytes) :
  _lock st = false → b ≠ "001"%char → b ≠ "000"%char →
  _monitor_recv (String b rest) st = (Ret (), st, []) ∧
  subscriptions (state_of (_monitor_recv (String b rest) st)) = subscriptions st ∧
  trace_of (_monitor_recv (String b rest) st) = [].
Proof.
  intros Hl H1 H0. rewrite (recv_other st b rest Hl H1 H0). by repeat split.
Qed.

Lemma other_frame_ignored_witness :
  _monitor_recv (String "002" "news") (mkMonitor ["news"] false) =
  (Ret (), mkMonitor ["news"] false, []).
Proof.
  apply (other_frame_ignored (mkMonitor ["news"] false) "002"%char "news" eq_refl);
    discriminate.
Defined.

(** C9: a new monitor that has read any sequence of well-formed control
    frames knows the channel [c] exactly when the most recent frame that
    named [c] was a subscribe frame, and knows no channel twice.  The run
    itself consumes every frame with the lock free again at the end, and
    returns when the socket is then closed. *)
Theorem subscriptions_follow_latest_frame (frames : list bytes) (c : bytes) :
  Forall well_formed frames →
  let st := state_of (_monitor (Readable <$> frames) (__init__ false)) in
  (c ∈ subscriptions st ↔ last_named_by_subscribe c frames) ∧
  NoDup (subscriptions st) ∧
  _lock st = false ∧
  outcome_of (_monitor ((Readable <$> frames) ++ [Closed]) (__init__ false)) = Ret () ∧
  state_of (_monitor ((Readable <$> frames) ++ [Closed]) (__init__ false)) = st.
Proof.
  intros Hwf.
  destruct (monitor_run frames (__init__ false) eq_refl (NoDup_nil_2 (A:=bytes)) Hwf)
    as (subs' & tr & Hrun & Hrun' & Hnd & Hmem).
  cbn zeta. rewrite Hrun, Hrun'. cbn. repeat split; try done.
  - intros Hc. apply Hmem in Hc as [Hc|[_ Hc]]; [done | inversion Hc].
  - intros Hc. apply Hmem. by left.
Qed.

Lemma subscriptions_follow_latest_frame_witness :
  "a" ∈ subscriptions
          (state_of (_monitor (Readable <$> Examples.frames) (__init__ false))).
Proof.
  apply (subscriptions_follow_latest_frame Examples.frames "a").
  - repeat constructor; eexists; (by left) || (by right).
  - exists [sub_frame "a"; unsub_frame "a"],
           [sub_frame "b"; unsub_frame "b"].
    split; [reflexivity|].
    split; intros Hin;
      repeat match goal with H : _ ∈ _ |- _ => inversion H; clear H; subst end.
Defined.

(** Subscribe, unsubscribe, subscribe: three calls, in that order. *)
Example sub_unsub_sub :
  _monitor [Readable (sub_frame "a"); Readable (unsub_frame "a");
            Readable (sub_frame "a"); Closed] (__init__ false) =
  (Ret (), mkMonitor ["a"] false,
   [Callback "sub" "a"; Callback "unsub" "a"; Callback "sub" "a"]).
Proof. vm_compute. reflexivity. Qed.

(** An empty frame has no first byte: [m[0]] raises inside the critical
    section and the lock stays held. *)
Example empty_frame_raises :
  _monitor_recv "" (__init__ false) =
  (Raise (IndexError "string index out of range"), mkMonitor [] true, []).
Proof. reflexivity. Qed.

End MonitorProps.


(** * Further properties of the client *)

Module ClientMore.
Import Client ClientSpec ClientProps.

(** With a free lock the constructor never waits. *)
Lemma connect_zmq_fresh_outcome (c : ZmqPubControlClient) :
  _lock c = false → outcome_of (connect_zmq c) ≠ Blocks.
Proof.
  intros Hl. destruct_client c; try discriminate; run_method; discriminate.
Qed.

(** What [connect_zmq] leaves behind on a client whose socket, if any,
    matches its configuration. *)
Lemma connect_zmq_matches (c : ZmqPubControlClient) :
  _lock c = false →
  (∀ s, _zmq_sock c = Some s → socket_matches_config c s) →
  let c' := state_of (connect_zmq c) in
  same_config c c' ∧ _lock c' = false ∧
  (∀ s, _zmq_sock c' = Some s → socket_matches_config c' s).
Proof.
  intros Hl Hm. unfold same_config, socket_matches_config, broadcast_eligible,
    push_eligible in *.
  destruct_client c; try discriminate; run_method; cbn in *;
    (split; [tauto|]); (split; [reflexivity|]);
    intros s' Hs'; simplify_eq;
    try (apply Hm; reflexivity);
    cbv [sock_set_linger sock_connect ctx_socket app socket_type peers linger];
    first [ left; split; [intuition congruence | eauto]
          | right; split; [intuition congruence | split; [intuition congruence | eauto]] ].
Qed.

Lemma close_matches (c : ZmqPubControlClient) :
  _lock c = false →
  close c = (Ret (), set_zmq_sock None c,
             match _zmq_sock c with Some s => [SockClose s] | None => [] end).
Proof.
  intros Hl. destruct_client c; try discriminate; run_method; reflexivity.
Qed.

(** X1: a constructor call with neither URI returns a client without
    validating anything, whatever the two flags; the error comes with
    the first [connect_zmq] on that client. *)
Theorem init_without_uris_defers_validation (u : string) (req dis : bool) :
  let c := mkClient u None None req dis false None in
  __init__ true true u None None req dis = Ret c ∧
  connect_zmq c =
    (Raise (ValueError "either a zmq pub or push uri must be set to publish"), c, []).
Proof. destruct req, dis; split; reflexivity. Qed.

(** X2: the constructor raises [ValueError] for a missing [zmq], then for
    a missing [tnetstring]; with both packages it returns a client
    unless a PUSH URI comes with [require_subscriptions] and no PUB
    URI.  It never waits, and [disable_pub] has no part in whether it
    raises. *)
Theorem init_outcome (zmq tn : bool) (u : string) (push pub : option string)
    (req dis : bool) :
  (zmq = false →
     __init__ zmq tn u push pub req dis =
       Raise (ValueError "zmq package must be installed")) ∧
  (zmq = true → tn = false →
     __init__ zmq tn u push pub req dis =
       Raise (ValueError "tnetstring package must be installed")) ∧
  (zmq = true → tn = true →
     if bool_decide (pub = None) && bool_decide (push ≠ None) && req
     then __init__ zmq tn u push pub req dis =
            Raise (ValueError
              "zmq_pub_uri must be set if require_subscriptions is set to true")
     else ∃ c, __init__ zmq tn u push pub req dis = Ret c) ∧
  ((∃ c, __init__ zmq tn u push pub req dis = Ret c) ↔
   (∃ c, __init__ zmq tn u push pub req (negb dis) = Ret c)).
Proof.
  destruct zmq, tn, push, pub, req, dis; cbn;
    repeat split; intros; try discriminate; try reflexivity; eauto;
    try (destruct H as [? H]; discriminate H).
Qed.

(** X3: the client a constructor call returns has the arguments as its
    configuration and a free lock, and holds the socket the precedence
    selects from them: none exactly when no archetype is eligible. *)
Theorem init_returns_configured_client (zmq tn : bool) (u : string)
    (push pub : option string) (req dis : bool) (c : ZmqPubControlClient) :
  __init__ zmq tn u push pub req dis = Ret c →
  uri c = u ∧ zmq_pub_uri c = pub ∧ zmq_push_uri c = push ∧
  require_subscriptions c = req ∧ disable_pub c = dis ∧ _lock c = false ∧
  (∀ s, _zmq_sock c = Some s → socket_matches_config c s) ∧
  (_zmq_sock c = None ↔ ¬ broadcast_eligible c ∧ ¬ push_eligible c).
Proof.
  unfold socket_matches_config, broadcast_eligible, push_eligible.
  destruct zmq, tn, push, pub, req, dis; intros H; vm_compute in H;
    simplify_eq; cbn;
    repeat split; try congruence;
    try (intros; simplify_eq);
    try solve [intuition congruence];
    first [ left; split; [intuition congruence | eauto]
          | right; split; [intuition congruence | split; [intuition congruence | eauto]] ].
Qed.

Lemma init_returns_configured_client_witness :
  _zmq_sock Examples.pub_client = Some Examples.pub_sock ∧
  socket_matches_config Examples.pub_client Examples.pub_sock.
Proof.
  split; [reflexivity|].
  apply (init_returns_configured_client true true Examples.control
           (Some Examples.push_endpoint) (Some Examples.pub_endpoint) true false
           Examples.pub_client eq_refl).
  reflexivity.
Defined.

(** X5: [close] with a free lock returns normally with no socket held,
    the configuration and the free lock as before; it closes the socket
    it held, once, and a second [close] does nothing at all. *)
Theorem close_releases_socket_once (c : ZmqPubControlClient) :
  _lock c = false →
  let c' := state_of (close c) in
  outcome_of (close c) = Ret () ∧
  _zmq_sock c' = None ∧ _lock c' = false ∧ same_config c c' ∧
  trace_of (close c) =
    match _zmq_sock c with Some s => [SockClose s] | None => [] end ∧
  close c' = (Ret (), c', []).
Proof.
  intros Hl. unfold same_config.
  destruct_client c; try discriminate; run_method; cbn; repeat split.
Qed.

Lemma close_releases_socket_once_witness :
  trace_of (close Examples.push_client) = [SockClose Examples.push_sock].
Proof.
  apply (close_releases_socket_once Examples.push_client eq_refl).
Defined.

(** X10: [connect_zmq] returns normally exactly when the configuration
    passes validation and the lock is free, and waits exactly when the
    configuration passes and the lock is held; the only exception it
    raises is the [ValueError] of a configuration that does not pass: it
    never hands [None] to [connect].  It never touches the
    configuration, and what it does to the outside world is not
    recorded as a send, a close or a call. *)
Theorem connect_zmq_outcome (c : ZmqPubControlClient) :
  (outcome_of (connect_zmq c) = Ret () ↔ valid_config c ∧ _lock c = false) ∧
  (outcome_of (connect_zmq c) = Blocks ↔ valid_config c ∧ _lock c = true) ∧
  (∀ e, outcome_of (connect_zmq c) = Raise e →
        ¬ valid_config c ∧ ∃ msg, e = ValueError msg) ∧
  same_config c (state_of (connect_zmq c)) ∧
  trace_of (connect_zmq c) = [].
Proof.
  unfold valid_config, same_config.
  destruct_client c; run_method; cbn;
    repeat split; try congruence; try discriminate;
    try solve [intuition congruence];
    try (intros; simplify_eq); eauto.
Qed.

Section PublishMore.
Context {Channel Item : Type}.
Variable _ensure_utf8 : Channel → bytes.
Variable export : Item → bool → bool → gmap string pyval.
Variable dumps : pyval → bytes.

Local Abbreviation publish := (publish _ensure_utf8 export dumps).
Local Abbreviation reachable := (reachable _ensure_utf8 export dumps).

Lemma reachable_matches (c : ZmqPubControlClient) :
  reachable c →
  _lock c = false ∧ (∀ s, _zmq_sock c = Some s → socket_matches_config c s).
Proof.
  induction 1 as [zmq tn u push pub req dis c Hi
                 |c Hr [Hl Hm]|c ch it bl cb Hr [Hl Hm]|c Hr [Hl Hm]].
  - unfold __init__ in Hi. destruct zmq, tn; try discriminate. cbn in Hi.
    set (c0 := mkClient u pub push req dis false None) in Hi.
    assert (H0 : ∀ s, _zmq_sock c0 = Some s → socket_matches_config c0 s)
      by (intros s Hs; discriminate Hs).
    destruct (is_not_None push || is_not_None pub).
    + pose proof (connect_zmq_matches c0 eq_refl H0) as (_ & Hl & Hm).
      destruct (connect_zmq c0) as [[[]]]; simplify_eq; auto.
    + simplify_eq. auto.
  - pose proof (connect_zmq_matches c Hl Hm) as (_ & ? & ?). auto.
  - rewrite (publish_state _ensure_utf8 export dumps) by exact Hl.
    pose proof (connect_zmq_matches c Hl Hm) as (_ & ? & ?). auto.
  - rewrite (close_matches c Hl). cbn. split; [by destruct c|].
    intros s Hs. destruct c; discriminate Hs.
Qed.

(** X4: whatever calls of [connect_zmq], [publish] and [close] follow
    the constructor, the client has its lock free between two calls, and
    a socket it holds is the one the precedence selects from its
    configuration, connected to that URI alone with linger 0; with
    [disable_pub] set it never holds an XPUB socket. *)
Theorem reachable_socket_matches_config (c : ZmqPubControlClient) :
  reachable c →
  _lock c = false ∧
  (∀ s, _zmq_sock c = Some s → socket_matches_config c s) ∧
  (disable_pub c = true → archetype c ≠ Some XPUB).
Proof.
  intros Hr. destruct (reachable_matches c Hr) as [Hl Hm].
  split; [exact Hl|]. split; [exact Hm|].
  intros Hd Ha. unfold archetype in Ha.
  destruct (_zmq_sock c) as [s|] eqn:Hs; [|discriminate].
  destruct (Hm s eq_refl) as [[(_ & Hdis & _) _]|(_ & _ & a & _ & ->)].
  - congruence.
  - discriminate Ha.
Qed.

(** X6: on such a client that holds a socket, [close] followed by
    [connect_zmq] gives back the very same client: the same archetype,
    connected to the same URI. *)
Theorem close_then_connect_restores (c : ZmqPubControlClient) :
  reachable c → _zmq_sock c ≠ None →
  outcome_of (close c) = Ret () ∧
  connect_zmq (state_of (close c)) = (Ret (), c, []).
Proof.
  intros Hr Hs. destruct (reachable_matches c Hr) as [Hl Hm].
  rewrite (close_matches c Hl). split; [reflexivity|]. cbn.
  destruct (_zmq_sock c) as [s|] eqn:Hsock; [|done].
  specialize (Hm s eq_refl).
  unfold socket_matches_config, broadcast_eligible, push_eligible in Hm.
  destruct_client c; cbn in *; simplify_eq;
    destruct Hm as [[(? & ? & [?|?]) (a & ? & ->)]|(Hn & [? ?] & a & ? & ->)];
    simplify_eq; try reflexivity;
    exfalso; apply Hn; intuition congruence.
Qed.

(** X7: [publish] starts with the validation of [connect_zmq]: on a
    configuration that does not pass it raises [ValueError] with
    nothing sent, the callback not called and the client as it was,
    whether or not a socket is held. *)
Theorem publish_invalid_config_raises (c : ZmqPubControlClient)
    channel item blocking callback :
  ¬ valid_config c →
  ∃ msg, publish channel item blocking callback c = (Raise (ValueError msg), c, []).
Proof.
  unfold valid_config. intros Hv.
  destruct_client c; destruct callback; run_method; eauto;
    exfalso; apply Hv; cbn; intuition congruence.
Qed.

(** X8: with a free lock, [publish] returns normally exactly when the
    configuration passes validation; either way it leaves the lock
    free and the configuration as it was, and the socket it leaves is
    the one [connect_zmq] alone would leave. *)
Theorem publish_outcome (c : ZmqPubControlClient) channel item blocking callback :
  _lock c = false →
  let r := publish channel item blocking callback c in
  (outcome_of r = Ret () ↔ valid_config c) ∧
  _lock (state_of r) = false ∧
  same_config c (state_of r) ∧
  state_of r = state_of (connect_zmq c).
Proof.
  intros Hl. unfold valid_config, same_config.
  destruct_client c; try discriminate; destruct callback; run_method; cbn;
    repeat case_bool_decide; cbn;
    repeat split; try congruence; try discriminate;
    solve [intuition congruence].
Qed.

(** X9: whatever the client, [publish] does one of three things to the
    outside world: nothing; only the callback's call; or one send on the
    socket it holds followed by the callback's call.  The callback, when
    there is one, is called exactly when [publish] returns normally, as
    its last act, with [True] and the empty string; without a callback
    nothing is called. *)
Theorem publish_trace_shape (c : ZmqPubControlClient)
    channel item blocking callback :
  let r := publish channel item blocking callback c in
  (outcome_of r = Ret () ∧
   (trace_of r = reported callback ∧ _zmq_sock (state_of r) = None ∨
    ∃ sock frames, _zmq_sock (state_of r) = Some sock ∧
                   trace_of r = Send sock frames :: reported callback)) ∨
  (outcome_of r ≠ Ret () ∧ trace_of r = []).
Proof.
  destruct_client c; destruct callback; run_method; cbn;
    repeat case_bool_decide; cbn;
    first [ right; split; [discriminate | reflexivity]
          | left; split; [reflexivity|]; left; split; reflexivity
          | left; split; [reflexivity|]; right; eauto ].
Qed.
End PublishMore.

Lemma close_then_connect_restores_witness :
  connect_zmq (state_of (close Examples.pub_client)) = (Ret (), Examples.pub_client, []).
Proof.
  apply (close_then_connect_restores Wire._ensure_utf8 Wire.export Wire.dumps
           Examples.pub_client).
  - apply (reach_init _ _ _ true true Examples.control
             (Some Examples.push_endpoint) (Some Examples.pub_endpoint) true false).
    reflexivity.
  - discriminate.
Defined.

Lemma reachable_socket_matches_config_witness :
  socket_matches_config Examples.push_client Examples.push_sock.
Proof.
  apply (reachable_socket_matches_config Wire._ensure_utf8 Wire.export Wire.dumps
           Examples.push_client).
  - apply (reach_init _ _ _ true true Examples.control
             (Some Examples.push_endpoint) None false false).
    reflexivity.
  - reflexivity.
Defined.

Lemma publish_invalid_config_raises_witness :
  ∃ msg, Client.publish Wire._ensure_utf8 Wire.export Wire.dumps
           Examples.channel Examples.item false (Some "done") Examples.stale_client =
         (Raise (ValueError msg), Examples.stale_client, []).
Proof.
  apply (publish_invalid_config_raises Wire._ensure_utf8 Wire.export Wire.dumps
           Examples.stale_client).
  intros [_ H]. apply H. split; reflexivity.
Defined.

Lemma publish_outcome_witness :
  outcome_of (Client.publish Wire._ensure_utf8 Wire.export Wire.dumps
                Examples.channel Examples.item false None Examples.fresh_client)
  = Ret ().
Proof.
  apply (publish_outcome Wire._ensure_utf8 Wire.export Wire.dumps
           Examples.fresh_client Examples.channel Examples.item false None eq_refl).
  split; intros [H _]; discriminate H.
Defined.

End ClientMore.

(** * Further properties of the monitor *)

Module MonitorMore.
Import Monitor MonitorSpec MonitorProps.

(** The loop after a frame that was read without an exception. *)
Lemma monitor_cons (m : bytes) (st : ZmqSubMonitor) subs1 tr1 :
  _monitor_recv m st = (Ret (), set_subscriptions subs1 st, tr1) →
  ∀ feed, _monitor (Readable m :: feed) st =
          let r := _monitor feed (set_subscriptions subs1 st) in
          (outcome_of r, state_of r, tr1 ++ trace_of r).
Proof.
  intros Hr feed. cbn [_monitor]. cbv [mbind method_bind bind]. rewrite Hr.
  by destruct (_monitor feed (set_subscriptions subs1 st)) as [[? ?] ?].
Qed.

(** One turn of the loop on a frame that has a first byte. *)
Lemma recv_nonempty (st : ZmqSubMonitor) (m : bytes) :
  _lock st = false → m ≠ "" →
  ∃ subs1 tr1,
    _monitor_recv m st = (Ret (), set_subscriptions subs1 st, tr1) ∧
    ((∃ c, m = sub_frame c ∧ (c ∉ subscriptions st) ∧
           subs1 = subscriptions st ++ [c] ∧ tr1 = [Callback "sub" c]) ∨
     (∃ c, m = sub_frame c ∧ c ∈ subscriptions st ∧
           subs1 = subscriptions st ∧ tr1 = []) ∨
     (∃ c, m = unsub_frame c ∧ tr1 = [Callback "unsub" c] ∧
           (c ∉ subscriptions st → subs1 = subscriptions st) ∧
           (c ∈ subscriptions st → list_remove c (subscriptions st) = Some subs1)) ∨
     (¬ well_formed m ∧ subs1 = subscriptions st ∧ tr1 = [])).
Proof.
  intros Hl Hm. destruct m as [|b c]; [done|].
  destruct (decide (b = "001"%char)) as [->|H1];
    [|destruct (decide (b = "000"%char)) as [->|H0]].
  - change (String "001" c) with (sub_frame c).
    rewrite (recv_subscribe st c Hl). case_bool_decide as Hc.
    + exists (subscriptions st), []. split; [by destruct st|].
      right. left. by exists c.
    + exists (subscriptions st ++ [c]), [Callback "sub" c]. split; [done|].
      left. by exists c.
  - change (String "000" c) with (unsub_frame c).
    destruct (recv_unsubscribe st c Hl) as (subs1 & Hr & Hout & Hin).
    exists subs1, [Callback "unsub" c]. split; [done|].
    right. right. left. by exists c.
  - exists (subscriptions st), []. rewrite (recv_other st b c Hl H1 H0).
    split; [by destruct st|]. right. right. right.
    split; [|done]. intros [d [Hd|Hd]]; unfold sub_frame, unsub_frame in Hd;
      congruence.
Qed.

(** The run over frames that all have a first byte. *)
Lemma monitor_run_nonempty (frames : list bytes) (st : ZmqSubMonitor) :
  _lock st = false → Forall (λ m, m ≠ "") frames →
  ∃ subs' tr,
    _monitor (Readable <$> frames) st = (Blocks, set_subscriptions subs' st, tr) ∧
    ∀ feed, _monitor ((Readable <$> frames) ++ feed) st =
            let r := _monitor feed (set_subscriptions subs' st) in
            (outcome_of r, state_of r, tr ++ trace_of r).
Proof.
  revert st. induction frames as [|m frames IH]; intros st Hl Hne.
  - exists (subscriptions st), []. destruct st as [subs lk]. split; [done|].
    intros feed. cbn. by destruct (_monitor feed _) as [[? ?] ?].
  - apply Forall_cons in Hne as [Hm Hne].
    destruct (recv_nonempty st m Hl Hm) as (subs1 & tr1 & Hr & _).
    pose proof (monitor_cons m st subs1 tr1 Hr) as Hk.
    destruct (IH (set_subscriptions subs1 st) Hl Hne) as (subs' & tr & Hrun & Hcomp).
    exists subs', (tr1 ++ tr). split.
    + cbn [fmap list_fmap]. rewrite (Hk (Readable <$> frames)).
      cbn [fmap list_fmap] in Hrun. by rewrite Hrun.
    + intros feed. cbn [fmap list_fmap app].
      rewrite (Hk ((Readable <$> frames) ++ feed)).
      cbn [fmap list_fmap] in Hcomp. rewrite (Hcomp feed). cbn.
      by rewrite app_assoc.
Qed.

(** X11: a run over frames that all have a first byte consumes them
    all, without raising, and ends with the lock free; what the loop
    does on anything that comes after them is what it would do from the
    state reached, with the calls made so far in front. *)
Theorem monitor_runs_compose (frames : list bytes) (feed : list arrival)
    (st : ZmqSubMonitor) :
  _lock st = false → Forall (λ m, m ≠ "") frames →
  let r1 := _monitor (Readable <$> frames) st in
  let r2 := _monitor feed (state_of r1) in
  outcome_of r1 = Blocks ∧ _lock (state_of r1) = false ∧
  _monitor ((Readable <$> frames) ++ feed) st =
    (outcome_of r2, state_of r2, trace_of r1 ++ trace_of r2).
Proof.
  intros Hl Hne.
  destruct (monitor_run_nonempty frames st Hl Hne) as (subs' & tr & Hrun & Hcomp).
  cbn zeta. rewrite Hrun, (Hcomp feed). cbn. by repeat split.
Qed.

Lemma monitor_runs_compose_witness :
  _monitor ((Readable <$> Examples.frames) ++ [Readable (sub_frame "c"); Closed])
    (__init__ false) =
  (Ret (), mkMonitor ["a"; "c"] false,
   [Callback "sub" "a"; Callback "unsub" "a"; Callback "sub" "a";
    Callback "sub" "b"; Callback "unsub" "b"; Callback "sub" "c"]).
Proof.
  refine (eq_trans (proj2 (proj2 (monitor_runs_compose Examples.frames
            [Readable (sub_frame "c"); Closed] (__init__ false) eq_refl _))) _).
  - repeat constructor; discriminate.
  - vm_compute. reflexivity.
Defined.

(** X12: a poll that comes back without [POLLIN] changes nothing: the
    loop does the same with and without such polls in what the socket
    brings. *)
Theorem monitor_skips_unreadable_polls (feed : list arrival) (st : ZmqSubMonitor) :
  _monitor feed st = _monitor (List.filter shows_something feed) st.
Proof.
  revert st. induction feed as [|[|m|] feed IH]; intros st; cbn.
  - reflexivity.
  - reflexivity.
  - cbv [mbind method_bind bind].
    destruct (_monitor_recv m st) as [[[[]| |] s1] es1]; [|reflexivity..].
    by rewrite IH.
  - apply IH.
Qed.

(** X13: the loop ends at the first turn that finds the socket closed:
    nothing that the socket would bring afterwards is read. *)
Theorem monitor_stops_when_closed (before after : list arrival)
    (st : ZmqSubMonitor) :
  _monitor (before ++ Closed :: after) st = _monitor (before ++ [Closed]) st.
Proof.
  revert st. induction before as [|[|m|] before IH]; intros st; cbn.
  - reflexivity.
  - reflexivity.
  - cbv [mbind method_bind bind].
    destruct (_monitor_recv m st) as [[[[]| |] s1] es1]; [|reflexivity..].
    by rewrite IH.
  - apply IH.
Qed.

(** X14: a frame of no byte at all ends the monitor: [m[0]] raises
    [IndexError] after the lock was taken, so the run stops there with
    the calls of the frames before it, reads nothing more, and leaves
    the lock held: every later turn on that lock waits. *)
Theorem empty_frame_ends_monitor (frames : list bytes) (rest : list arrival)
    (st : ZmqSubMonitor) :
  _lock st = false → Forall (λ m, m ≠ "") frames →
  let r1 := _monitor (Readable <$> frames) st in
  _monitor ((Readable <$> frames) ++ Readable "" :: rest) st =
    (Raise (IndexError "string index out of range"),
     set_lock true (state_of r1), trace_of r1) ∧
  ∀ m, _monitor_recv m (set_lock true (state_of r1)) =
       (Blocks, set_lock true (state_of r1), []).
Proof.
  intros Hl Hne.
  destruct (monitor_run_nonempty frames st Hl Hne) as (subs' & tr & Hrun & Hcomp).
  cbn zeta. rewrite Hrun, (Hcomp (Readable "" :: rest)).
  destruct st as [subs lk]. cbn in Hl. subst lk. split.
  - cbn [_monitor]. run_method. by rewrite app_nil_r.
  - intros m. reflexivity.
Qed.

Lemma empty_frame_ends_monitor_witness :
  _monitor ((Readable <$> Examples.frames) ++ [Readable ""; Readable (sub_frame "c")])
    (__init__ false) =
  (Raise (IndexError "string index out of range"), mkMonitor ["a"] true,
   [Callback "sub" "a"; Callback "unsub" "a"; Callback "sub" "a";
    Callback "sub" "b"; Callback "unsub" "b"]).
Proof.
  refine (eq_trans (proj1 (empty_frame_ends_monitor Examples.frames
            [Readable (sub_frame "c")] (__init__ false) eq_refl _)) _).
  - repeat constructor; discriminate.
  - vm_compute. reflexivity.
Defined.

(** One turn of the loop on a frame that has a first byte, from a list
    without duplicate. *)
Lemma recv_nonempty_inv (st : ZmqSubMonitor) (m : bytes) :
  _lock st = false → m ≠ "" → NoDup (subscriptions st) →
  ∃ subs1 tr1,
    _monitor_recv m st = (Ret (), set_subscriptions subs1 st, tr1) ∧
    NoDup subs1 ∧
    (∀ c, c ∈ subs1 ↔ m = sub_frame c ∨ (m ≠ unsub_frame c ∧ c ∈ subscriptions st)) ∧
    ((∃ d, m = sub_frame d ∧ (d ∉ subscriptions st) ∧ tr1 = [Callback "sub" d]) ∨
     (∃ d, m = unsub_frame d ∧ tr1 = [Callback "unsub" d]) ∨
     ((∀ d, m = sub_frame d → d ∈ subscriptions st) ∧
      (∀ d, m ≠ unsub_frame d) ∧ tr1 = [])).
Proof.
  intros Hl Hm Hnd.
  destruct (recv_nonempty st m Hl Hm) as (subs2 & tr2 & Hr2 & Hcase).
  assert (Hwf : well_formed m ∨ ¬ well_formed m).
  { destruct Hcase as [(d & -> & _)|[(d & -> & _)|[(d & -> & _)|(Hn & _)]]];
      [left; exists d; by left | left; exists d; by left
      | left; exists d; by right | by right]. }
  destruct Hwf as [Hwf|Hwf].
  - destruct (recv_well_formed st m Hl Hnd Hwf) as (subs1 & tr1 & Hr & Hnd1 & Hmem).
    exists subs1, tr1. split; [done|]. split; [done|]. split; [done|].
    rewrite Hr in Hr2. simplify_eq.
    destruct Hcase as [(d & -> & Hd & _ & ->)|[(d & -> & Hd & _ & ->)
                      |[(d & -> & -> & _)|(Hn & _)]]].
    + left. eauto.
    + right. right. split; [|split; [|done]].
      * intros d' Heq. unfold sub_frame in Heq. by simplify_eq.
      * intros d'. discriminate.
    + right. left. eauto.
    + done.
  - assert (Hs : ∀ d, m ≠ sub_frame d) by (intros d ->; apply Hwf; eexists; eauto).
    assert (Hu : ∀ d, m ≠ unsub_frame d) by (intros d ->; apply Hwf; eexists; eauto).
    destruct Hcase as [(d & Hd & _)|[(d & Hd & _)|[(d & Hd & _)|(_ & -> & ->)]]];
      try (by destruct (Hs d)); try (by destruct (Hu d)).
    exists (subscriptions st), []. split; [done|]. split; [done|]. split.
    + intros c. split; [intros Hc; right; split; auto|].
      intros [Heq|[_ Hc]]; [by destruct (Hs c) | done].
    + right. right. split; [|done]. intros d Heq. by destruct (Hs d).
Qed.

Lemma bracketed_sub (c : bytes) (known : bool) (tr : list event) :
  bracketed c known (Callback "sub" c :: tr) = negb known && bracketed c true tr.
Proof.
  cbn [bracketed]. rewrite (bool_decide_eq_true_2 (c = c)) by done.
  by rewrite (bool_decide_eq_true_2 ("sub" = "sub")) by done.
Qed.

Lemma bracketed_unsub (c : bytes) (known : bool) (tr : list event) :
  bracketed c known (Callback "unsub" c :: tr) = bracketed c false tr.
Proof.
  cbn [bracketed]. rewrite (bool_decide_eq_true_2 (c = c)) by done.
  rewrite (bool_decide_eq_false_2 ("unsub" = "sub")) by discriminate.
  by rewrite (bool_decide_eq_true_2 ("unsub" = "unsub")) by done.
Qed.

Lemma bracketed_other (c d : bytes) (kind : string) (known : bool)
    (tr : list event) :
  d ≠ c → bracketed c known (Callback kind d :: tr) = bracketed c known tr.
Proof.
  intros Hd. cbn [bracketed]. by rewrite (bool_decide_eq_false_2 (d = c)) by done.
Qed.

(** X15: in a run over frames that all have a first byte, from a list
    of subscriptions without duplicate, the calls about one channel
    alternate: [("sub", c)] is called only when [c] was not known at the
    start or [("unsub", c)] was the last call about [c], never twice in
    a row. *)
Theorem sub_calls_alternate (frames : list bytes) (st : ZmqSubMonitor) (c : bytes) :
  _lock st = false → NoDup (subscriptions st) → Forall (λ m, m ≠ "") frames →
  bracketed c (bool_decide (c ∈ subscriptions st))
    (trace_of (_monitor (Readable <$> frames) st)) = true.
Proof.
  revert st. induction frames as [|m frames IH]; intros st Hl Hnd Hne.
  - reflexivity.
  - apply Forall_cons in Hne as [Hm Hne].
    destruct (recv_nonempty_inv st m Hl Hm Hnd)
      as (subs1 & tr1 & Hr & Hnd1 & Hmem & Htr).
    specialize (IH (set_subscriptions subs1 st) Hl Hnd1 Hne).
    cbn [fmap list_fmap] in *.
    rewrite (monitor_cons m st subs1 tr1 Hr). cbn [trace_of snd].
    change (subscriptions (set_subscriptions subs1 st)) with subs1 in IH.
    destruct Htr as [(d & -> & Hd & ->)|[(d & -> & ->)|(Hs & Hu & ->)]].
    + cbn [app]. destruct (decide (d = c)) as [->|Hdc].
      * rewrite bracketed_sub, (bool_decide_eq_false_2 _ Hd). cbn.
        rewrite (bool_decide_eq_true_2 (c ∈ subs1)) in IH; [done|].
        apply Hmem. by left.
      * rewrite bracketed_other by done.
        erewrite bool_decide_ext; [exact IH|]. rewrite Hmem. split.
        -- intros Hc. right. split; [discriminate | done].
        -- intros [Heq|[_ Hc]]; [|done]. unfold sub_frame in Heq. by simplify_eq.
    + cbn [app]. destruct (decide (d = c)) as [->|Hdc].
      * rewrite bracketed_unsub.
        rewrite (bool_decide_eq_false_2 (c ∈ subs1)) in IH; [done|].
        rewrite Hmem. intros [Heq|[Hneq _]]; [discriminate | done].
      * rewrite bracketed_other by done.
        erewrite bool_decide_ext; [exact IH|]. rewrite Hmem. split.
        -- intros Hc. right. split; [|done]. unfold unsub_frame. congruence.
        -- intros [Heq|[_ Hc]]; [discriminate | done].
    + cbn [app]. erewrite bool_decide_ext; [exact IH|]. rewrite Hmem. split.
      * intros Hc. right. split; [apply Hu | done].
      * intros [Heq|[_ Hc]]; [by apply Hs | done].
Qed.

Lemma sub_calls_alternate_witness :
  bracketed "a" false
    (trace_of (_monitor (Readable <$> Examples.frames) (__init__ false))) = true.
Proof.
  apply (sub_calls_alternate Examples.frames (__init__ false) "a" eq_refl).
  - apply NoDup_nil_2.
  - repeat constructor; discriminate.
Defined.

(** X16: in a run over frames that all have a first byte, the
    [("unsub", c)] calls are exactly the unsubscribe frames, one call
    for each, in the order of the frames; and no frame gives more than
    one call. *)
Theorem unsub_calls_follow_frames (frames : list bytes) (st : ZmqSubMonitor) :
  _lock st = false → Forall (λ m, m ≠ "") frames →
  let tr := trace_of (_monitor (Readable <$> frames) st) in
  unsub_calls tr = omap unsub_channel frames ∧ (List.length tr ≤ List.length frames)%nat.
Proof.
  revert st. induction frames as [|m frames IH]; intros st Hl Hne.
  - split; [reflexivity | cbn; lia].
  - apply Forall_cons in Hne as [Hm Hne].
    destruct (recv_nonempty st m Hl Hm) as (subs1 & tr1 & Hr & Hcase).
    destruct (IH (set_subscriptions subs1 st) Hl Hne) as [IH1 IH2].
    cbn zeta. cbn [fmap list_fmap] in *.
    rewrite (monitor_cons m st subs1 tr1 Hr). cbn [trace_of snd].
    unfold unsub_calls in *. rewrite omap_app, List.length_app, IH1.
    destruct Hcase as [(d & -> & _ & _ & ->)|[(d & -> & _ & _ & ->)
                      |[(d & -> & -> & _)|(Hn & _ & ->)]]]; cbn; try (split; [done | lia]).
    destruct m as [|b rest]; [done|]. cbn. case_bool_decide as Hb.
    + subst b. destruct Hn. exists rest. by right.
    + split; [done | lia].
Qed.

Lemma unsub_calls_follow_frames_witness :
  unsub_calls (trace_of (_monitor (Readable <$> Examples.frames) (__init__ false)))
  = ["a"; "b"].
Proof.
  refine (eq_trans (proj1 (unsub_calls_follow_frames Examples.frames
                             (__init__ false) eq_refl _)) _).
  - repeat constructor; discriminate.
  - reflexivity.
Defined.

(** The run over any frames that have a first byte, well-formed or
    not. *)
Lemma monitor_run_any (frames : list bytes) (st : ZmqSubMonitor) :
  _lock st = false → NoDup (subscriptions st) → Forall (λ m, m ≠ "") frames →
  ∃ subs' tr,
    _monitor (Readable <$> frames) st = (Blocks, set_subscriptions subs' st, tr) ∧
    NoDup subs' ∧
    ∀ c, c ∈ subs' ↔
         last_named_by_subscribe c frames ∨ (unnamed c frames ∧ c ∈ subscriptions st).
Proof.
  revert st. induction frames as [|m frames IH]; intros st Hl Hnd Hne.
  - exists (subscriptions st), []. repeat split; try (by destruct st); try done.
    + intros Hc. right. split; [|done]. split; apply not_elem_of_nil.
    + intros [([|? ?] & ? & ? & _)|[_ Hc]]; by simplify_eq.
  - apply Forall_cons in Hne as [Hm Hne].
    destruct (recv_nonempty_inv st m Hl Hm Hnd) as (subs1 & tr1 & Hr & Hnd1 & Hmem1 & _).
    destruct (IH (set_subscriptions subs1 st) Hl Hnd1 Hne)
      as (subs' & tr & Hrun & Hnd' & Hmem).
    exists subs', (tr1 ++ tr). split; [|split; [done|]].
    + cbn [fmap list_fmap] in *. rewrite (monitor_cons m st subs1 tr1 Hr), Hrun.
      reflexivity.
    + intros c. rewrite Hmem, last_named_cons, unnamed_cons. cbn.
      rewrite Hmem1. destruct (decide (m = sub_frame c)); intuition congruence.
Qed.

(** X17: frames of another type between the control frames change
    nothing to what the monitor knows: after any frames that have a
    first byte, a new monitor knows [c] exactly when the most recent
    frame that named [c] was a subscribe frame, and knows no channel
    twice. *)
Theorem subscriptions_ignore_other_frames (frames : list bytes) (c : bytes) :
  Forall (λ m, m ≠ "") frames →
  let st := state_of (_monitor (Readable <$> frames) (__init__ false)) in
  (c ∈ subscriptions st ↔ last_named_by_subscribe c frames) ∧
  NoDup (subscriptions st) ∧ _lock st = false.
Proof.
  intros Hne.
  destruct (monitor_run_any frames (__init__ false) eq_refl (NoDup_nil_2 (A:=bytes)) Hne)
    as (subs' & tr & Hrun & Hnd & Hmem).
  cbn zeta. rewrite Hrun. cbn. repeat split; try done.
  - intros Hc. apply Hmem in Hc as [Hc|[_ Hc]]; [done | inversion Hc].
  - intros Hc. apply Hmem. by left.
Qed.

Lemma subscriptions_ignore_other_frames_witness :
  "a" ∈ subscriptions
          (state_of (_monitor (Readable <$> [sub_frame "a"; String "002" "a"; "a"])
                       (__init__ false))).
Proof.
  apply (subscriptions_ignore_other_frames [sub_frame "a"; String "002" "a"; "a"] "a").
  - repeat constructor; discriminate.
  - exists [], [String "002" "a"; "a"]. split; [reflexivity|].
    split; intros Hin;
      repeat match goal with H : _ ∈ _ |- _ => inversion H; clear H; subst end.
Defined.

End MonitorMore.
